(** * cli/generate_rest.py: the generator of [rest_gen.go]

    The script builds one text value in the variable [res]: a fixed header,
    an import block with one line per entry of [imports], and, for every
    entry [(typ, name, _, _)] of [types], the documentation and the
    definitions of the Go functions [Rest<name>sVar] and [Rest<name>s].
    The text is then written to [./rest_gen.go].

    The embedding keeps the shape of the script: statements are
    transformers of the variable [res] that may raise, [res += e] is
    [aug e], the two [for] loops are [for_in], and the [%] operator is
    [format], which raises (returns [None]) when the template and the
    arguments do not fit. *)

From Stdlib Require Import String Ascii List Arith Bool Lia.
Import ListNotations.

Local Open Scope list_scope.
Local Open Scope string_scope.

(** ** Characters that the Python literals write with an escape *)

Definition nl_char : ascii := "010"%char.
Definition tab_char : ascii := "009"%char.
Definition dq_char : ascii := "034"%char.

Definition nl : string := String nl_char EmptyString.
Definition tab : string := String tab_char EmptyString.
Definition dq : string := String dq_char EmptyString.

(** ** The [%] operator on strings

    [format tpl args] is [tpl % args] for an argument tuple of strings:
    every [%s] takes the next argument, [%%] is a percent sign; Python
    raises [TypeError] when arguments are missing or left over, and the
    other conversions are not used by the script. *)

Fixpoint format (tpl : string) (args : list string) : option string :=
  match tpl with
  | EmptyString =>
      match args with
      | [] => Some EmptyString
      | _ :: _ => None
      end
  | String "%" (String "s" rest) =>
      match args with
      | a :: args' => option_map (append a) (format rest args')
      | [] => None
      end
  | String "%" (String "%" rest) => option_map (String "%"%char) (format rest args)
  | String "%" _ => None
  | String c rest => option_map (String c) (format rest args)
  end.

(** ** Statements over the variable [res] *)

Definition stmt : Type := string -> option string.

(** [res = e] *)
Definition assign (e : option string) : stmt := fun _ => e.

(** [res += e] *)
Definition aug (e : option string) : stmt :=
  fun res => option_map (append res) e.

(** A string literal never raises. *)
Definition lit (s : string) : option string := Some s.

Definition seq (s1 s2 : stmt) : stmt :=
  fun res =>
    match s1 res with
    | Some res' => s2 res'
    | None => None
    end.

Notation "s1 ;; s2" := (seq s1 s2) (at level 61, left associativity).

(** [for x in l: body x] *)
Fixpoint for_in {A : Type} (l : list A) (body : A -> stmt) : stmt :=
  match l with
  | [] => fun res => Some res
  | x :: l' => body x ;; for_in l' body
  end.

(** ** The script *)

(** Line 11, the body of the loop over [imports]. *)
Definition import_body (pkg : string) : stmt :=
  aug (format (tab ++ dq ++ "%s" ++ dq ++ nl) [pkg]).

(** Lines 15 to 44, the body of the loop over [types]. *)
Definition type_body (typ name : string) : stmt :=
  aug (lit nl) ;;
  aug (format ("// []%s" ++ nl) [typ]) ;;
  aug (lit nl) ;;
  aug (format ("// Rest%ssVar defines the []%s rest arguments with specified name." ++ nl) [name; typ]) ;;
  aug (format ("// The argument p points to a []%s variable in which to store values of arguments." ++ nl) [typ]) ;;
  aug (lit ("// The return value will be an error from the register.RegisterRestArgs if it" ++ nl)) ;;
  aug (lit ("// failed to register the rest arguments." ++ nl)) ;;
  aug (lit ("//" ++ nl)) ;;
  aug (lit ("// A usage may be set by passing a cli.Usage." ++ nl)) ;;
  aug (lit ("//" ++ nl)) ;;
  aug (format ("//   _ = cli.Rest%ssVar(register, &p, " ++ dq ++ "names" ++ dq
               ++ ", cli.Usage(" ++ dq ++ "Names of users" ++ dq ++ "))" ++ nl) [name]) ;;
  aug (format ("func Rest%ssVar(register Register, p *[]%s, name string, options ...RestOptionApplyer) error {" ++ nl) [name; typ]) ;;
  aug (format (tab ++ "return RestVar(register, new%sValues(p), name, options...)" ++ nl) [name]) ;;
  aug (lit ("}" ++ nl)) ;;
  aug (lit nl) ;;
  aug (format ("// Rest%ss defines the []%s rest arguments with specified name." ++ nl) [name; typ]) ;;
  aug (format ("// The return value is the address of a []%s variable that stores values of arguments." ++ nl) [typ]) ;;
  aug (lit ("//" ++ nl)) ;;
  aug (lit ("// A usage may be set by passing a cli.Usage." ++ nl)) ;;
  aug (lit ("//" ++ nl)) ;;
  aug (format ("//   _ = cli.Rest%ss(register, " ++ dq ++ "names" ++ dq
               ++ ", cli.Usage(" ++ dq ++ "Names of users" ++ dq ++ "))" ++ nl) [name]) ;;
  aug (format ("func Rest%ss(register Register, name string, options ...RestOptionApplyer) *[]%s {" ++ nl) [name; typ]) ;;
  aug (format (tab ++ "p := new([]%s)" ++ nl) [typ]) ;;
  aug (format (tab ++ "_ = Rest%ssVar(register, p, name, options...)" ++ nl) [name]) ;;
  aug (lit (tab ++ "return p" ++ nl)) ;;
  aug (lit ("}" ++ nl)).

Section Generator.

(** The third and the fourth component of an entry of [gotypes.types]
    are bound to [_] by the loop; their types are left open. *)
Variables X Y : Type.

Definition type_entry : Type := (string * string * X * Y)%type.

(** [for (typ, name, _, _) in types: ...] *)
Definition types_loop (types : list type_entry) : stmt :=
  for_in types (fun '(typ, name, _, _) => type_body typ name).

(** Lines 5 to 44. *)
Definition script (types : list type_entry) (imports : list string) : stmt :=
  assign (lit ("// Code generated by generate_rest.py; DO NOT EDIT." ++ nl)) ;;
  aug (lit nl) ;;
  aug (lit ("package cli" ++ nl)) ;;
  aug (lit nl) ;;
  aug (lit ("import (" ++ nl)) ;;
  for_in imports import_body ;;
  aug (lit (")" ++ nl)) ;;
  types_loop types.

(** The text handed to [f.write]: the value of [res] after the script,
    [None] if the script raised. *)
Definition generate (types : list type_entry) (imports : list string) : option string :=
  script types imports EmptyString.

End Generator.

Arguments types_loop {X Y} types res.
Arguments script {X Y} types imports res.
Arguments generate {X Y} types imports.

(** ** The text as a sequence of lines

    Every string that the script appends ends with a line feed, so the
    final text is [unlines] of a list of lines.  The lists below are the
    closed form of the script; [script_sets] proves that the script
    computes them. *)

Definition unlines (ls : list string) : string :=
  fold_right (fun l acc => l ++ nl ++ acc) EmptyString ls.

(** Lines 5 to 9. *)
Definition header_lines : list string :=
  [ "// Code generated by generate_rest.py; DO NOT EDIT.";
    EmptyString;
    "package cli";
    EmptyString;
    "import (" ].

(** Line 11, without its line feed. *)
Definition import_line (pkg : string) : string :=
  tab ++ dq ++ pkg ++ dq.

(** Lines 15 to 25: the comment before [Rest<name>sVar]. *)
Definition var_doc_lines (typ name : string) : list string :=
  [ EmptyString;
    "// []" ++ typ;
    EmptyString;
    "// Rest" ++ name ++ "sVar defines the []" ++ typ ++ " rest arguments with specified name.";
    "// The argument p points to a []" ++ typ ++ " variable in which to store values of arguments.";
    "// The return value will be an error from the register.RegisterRestArgs if it";
    "// failed to register the rest arguments.";
    "//";
    "// A usage may be set by passing a cli.Usage.";
    "//";
    "//   _ = cli.Rest" ++ name ++ "sVar(register, &p, " ++ dq ++ "names" ++ dq
      ++ ", cli.Usage(" ++ dq ++ "Names of users" ++ dq ++ "))" ].

(** Lines 28 to 30: the definition of [Rest<name>sVar]. *)
Definition var_func_lines (typ name : string) : list string :=
  [ "func Rest" ++ name ++ "sVar(register Register, p *[]" ++ typ
      ++ ", name string, options ...RestOptionApplyer) error {";
    tab ++ "return RestVar(register, new" ++ name ++ "Values(p), name, options...)";
    "}" ].

(** Lines 31 to 37: the comment before [Rest<name>s]. *)
Definition ptr_doc_lines (typ name : string) : list string :=
  [ EmptyString;
    "// Rest" ++ name ++ "s defines the []" ++ typ ++ " rest arguments with specified name.";
    "// The return value is the address of a []" ++ typ ++ " variable that stores values of arguments.";
    "//";
    "// A usage may be set by passing a cli.Usage.";
    "//";
    "//   _ = cli.Rest" ++ name ++ "s(register, " ++ dq ++ "names" ++ dq
      ++ ", cli.Usage(" ++ dq ++ "Names of users" ++ dq ++ "))" ].

(** Lines 40 to 44: the definition of [Rest<name>s]. *)
Definition ptr_func_lines (typ name : string) : list string :=
  [ "func Rest" ++ name ++ "s(register Register, name string, options ...RestOptionApplyer) *[]"
      ++ typ ++ " {";
    tab ++ "p := new([]" ++ typ ++ ")";
    tab ++ "_ = Rest" ++ name ++ "sVar(register, p, name, options...)";
    tab ++ "return p";
    "}" ].

(** All the lines of one iteration of the loop over [types]. *)
Definition fragment_lines (typ name : string) : list string :=
  (var_doc_lines typ name ++ var_func_lines typ name
     ++ ptr_doc_lines typ name ++ ptr_func_lines typ name)%list.

Definition entry_lines {X Y : Type} (d : type_entry X Y) : list string :=
  let '(typ, name, _, _) := d in fragment_lines typ name.

Definition types_lines {X Y : Type} (types : list (type_entry X Y)) : list string :=
  flat_map entry_lines types.

Definition preamble_lines (imports : list string) : list string :=
  (header_lines ++ map import_line imports ++ [")"])%list.

Definition output_lines {X Y : Type}
    (types : list (type_entry X Y)) (imports : list string) : list string :=
  (preamble_lines imports ++ types_lines types)%list.

(** ** Reading a text back

    [lines s] is [s.split("\n")]; [count_lines_with p s] counts the lines
    of [s] that start with [p], and [count_occurrences p s] the positions
    of [s] at which [p] occurs. *)

Fixpoint no_nl (s : string) : bool :=
  match s with
  | EmptyString => true
  | String c s' => negb (Ascii.eqb c nl_char) && no_nl s'
  end.

Fixpoint split_first_line (s : string) : string * list string :=
  match s with
  | EmptyString => (EmptyString, [])
  | String c s' =>
      let '(l, ls) := split_first_line s' in
      if Ascii.eqb c nl_char then (EmptyString, l :: ls) else (String c l, ls)
  end.

Definition lines (s : string) : list string :=
  let '(l, ls) := split_first_line s in l :: ls.

Definition count_lines_with (p s : string) : nat :=
  List.length (filter (prefix p) (lines s)).

Fixpoint count_occurrences (p s : string) : nat :=
  match s with
  | EmptyString => if prefix p EmptyString then 1 else 0
  | String _ s' => (if prefix p s then 1 else 0) + count_occurrences p s'
  end.

(** The number of Go function definitions of a text: the lines that
    open with the keyword [func]. *)
Definition count_func_defs (s : string) : nat := count_lines_with "func " s.

(** The inputs that keep one emitted line on one line of the text. *)
Definition entry_one_line {X Y : Type} (d : type_entry X Y) : Prop :=
  let '(typ, name, _, _) := d in no_nl typ = true /\ no_nl name = true.

Definition path_one_line (pkg : string) : Prop := no_nl pkg = true.

(** ** What a statement does to [res] *)

(** [appends s t]: from every state, [s] ends normally and has appended
    [t] to [res]. *)
Definition appends (s : stmt) (t : string) : Prop :=
  forall res, s res = Some (res ++ t).

(** [sets s t]: from every state, [s] ends normally with [res] equal to
    [t], whatever [res] was before. *)
Definition sets (s : stmt) (t : string) : Prop :=
  forall res, s res = Some t.

(** The two components of a catalog entry that the loop binds to names. *)
Definition descriptor {X Y : Type} (d : type_entry X Y) : string * string :=
  let '(typ, name, _, _) := d in (typ, name).

(** ** The import block of a text

    The lines of a text after its first line [import (] and before the
    next line that is a lone closing parenthesis. *)

Fixpoint after_import_open (ls : list string) : list string :=
  match ls with
  | [] => []
  | l :: ls' => if String.eqb l "import (" then ls' else after_import_open ls'
  end.

Fixpoint until_import_close (ls : list string) : list string :=
  match ls with
  | [] => []
  | l :: ls' => if String.eqb l ")" then [] else l :: until_import_close ls'
  end.

Definition import_block (out : string) : list string :=
  until_import_close (after_import_open (lines out)).

(** ** Measures of the generated text *)

(** Every line that opens a function definition comes right after a
    comment line; [prev] is the line before the first line of [ls]. *)
Fixpoint funcs_documented (prev : string) (ls : list string) : bool :=
  match ls with
  | [] => true
  | l :: ls' =>
      (negb (prefix "func " l) || prefix "//" prev) && funcs_documented l ls'
  end.

(** Every line that is a lone closing brace is followed by an empty
    line (or by the empty piece after the last line feed). *)
Fixpoint blank_after_closers (ls : list string) : bool :=
  match ls with
  | [] => true
  | l :: ls' =>
      (negb (String.eqb l "}")
       || match ls' with
          | [] => false
          | next :: _ => String.eqb next EmptyString
          end)
      && blank_after_closers ls'
  end.

(** The characters that one import path and one catalog entry add to the
    text: the path and four more; the element type and the name suffix
    eight times each, and the 964 characters of the templates. *)
Definition path_size (pkg : string) : nat := String.length pkg + 4.

Definition entry_size {X Y : Type} (d : type_entry X Y) : nat :=
  let '(typ, name, _, _) := d in
  8 * String.length typ + 8 * String.length name + 964.

(** * Lemmas *)

(** ** Strings *)

Lemma append_assoc (a b c : string) : (a ++ b) ++ c = a ++ (b ++ c).
Proof.
  induction a as [|ch a IH]; simpl; [reflexivity | now rewrite IH].
Qed.

Lemma append_nil_r (a : string) : a ++ EmptyString = a.
Proof.
  induction a as [|ch a IH]; simpl; [reflexivity | now rewrite IH].
Qed.

Lemma unlines_app (l1 l2 : list string) :
  unlines (l1 ++ l2)%list = unlines l1 ++ unlines l2.
Proof.
  induction l1 as [|l l1 IH]; simpl; [reflexivity|].
  rewrite IH. now rewrite !append_assoc.
Qed.

(** ** Statements *)

Lemma appends_aug (t : string) : appends (aug (Some t)) t.
Proof. intros res. reflexivity. Qed.

Lemma appends_seq (s1 s2 : stmt) (t1 t2 : string) :
  appends s1 t1 -> appends s2 t2 -> appends (s1 ;; s2) (t1 ++ t2).
Proof.
  intros H1 H2 res. unfold seq. rewrite H1, H2. now rewrite append_assoc.
Qed.

Lemma appends_eq (s : stmt) (t t' : string) :
  appends s t -> t = t' -> appends s t'.
Proof. now intros H <-. Qed.

Lemma appends_for_in {A : Type} (body : A -> stmt) (text : A -> list string) (l : list A) :
  (forall x, appends (body x) (unlines (text x))) ->
  appends (for_in l body) (unlines (flat_map text l)).
Proof.
  intros Hbody. induction l as [|x l IH]; simpl.
  - intros res. now rewrite append_nil_r.
  - rewrite unlines_app. now apply appends_seq.
Qed.

Lemma import_body_appends (pkg : string) :
  appends (import_body pkg) (unlines [import_line pkg]).
Proof.
  intros res. unfold import_body, aug, import_line. cbn.
  now rewrite !append_assoc.
Qed.

Lemma type_body_appends (typ name : string) :
  appends (type_body typ name) (unlines (fragment_lines typ name)).
Proof.
  intros res. unfold type_body, seq, aug, lit. cbn.
  repeat (rewrite append_assoc; cbn).
  reflexivity.
Qed.

Lemma sets_assign (t : string) : sets (assign (Some t)) t.
Proof. intros res. reflexivity. Qed.

Lemma sets_seq (s1 s2 : stmt) (t1 t2 : string) :
  sets s1 t1 -> appends s2 t2 -> sets (s1 ;; s2) (t1 ++ t2).
Proof.
  intros H1 H2 res. unfold seq. now rewrite H1, H2.
Qed.

Lemma sets_eq (s : stmt) (t t' : string) : sets s t -> t = t' -> sets s t'.
Proof. now intros H <-. Qed.

(** ** The script computes its closed form *)

Section Refinement.

Context {X Y : Type}.
Implicit Types (types : list (type_entry X Y)) (imports : list string).

Lemma imports_loop_appends imports :
  appends (for_in imports import_body) (unlines (map import_line imports)).
Proof.
  eapply appends_eq.
  - apply (appends_for_in import_body (fun pkg => [import_line pkg])).
    apply import_body_appends.
  - reflexivity.
Qed.

Lemma types_loop_appends types :
  appends (types_loop types) (unlines (types_lines types)).
Proof.
  unfold types_loop, types_lines.
  apply appends_for_in. intros [[[typ name] x] y]. apply type_body_appends.
Qed.

Lemma script_sets types imports :
  sets (script types imports) (unlines (output_lines types imports)).
Proof.
  unfold script, lit.
  eapply sets_eq.
  - repeat (eapply sets_seq; [| first [ apply types_loop_appends
                                      | apply imports_loop_appends
                                      | apply appends_aug ] ]).
    apply sets_assign.
  - unfold output_lines, preamble_lines.
    rewrite !unlines_app. cbn. now rewrite ?append_assoc.
Qed.

Lemma generate_lines types imports :
  generate types imports = Some (unlines (output_lines types imports)).
Proof. apply script_sets. Qed.

End Refinement.

(** ** Lines of a text *)

Lemma no_nl_append (a b : string) : no_nl (a ++ b) = no_nl a && no_nl b.
Proof.
  induction a as [|c a IH]; simpl; [reflexivity|].
  now rewrite IH, andb_assoc.
Qed.

Lemma split_first_line_append (l rest : string) :
  no_nl l = true ->
  split_first_line (l ++ String nl_char rest) = (l, lines rest).
Proof.
  induction l as [|c l IH]; simpl; intros H.
  - unfold lines. now destruct (split_first_line rest).
  - apply andb_prop in H as [Hc Hl]. rewrite (IH Hl).
    apply negb_true_iff in Hc. now rewrite Hc.
Qed.

Lemma lines_cons (l rest : string) :
  no_nl l = true -> lines (l ++ String nl_char rest) = l :: lines rest.
Proof.
  intros H. unfold lines at 1. now rewrite split_first_line_append.
Qed.

Lemma lines_unlines_app (ls : list string) (rest : string) :
  Forall (fun l => no_nl l = true) ls ->
  lines (unlines ls ++ rest) = (ls ++ lines rest)%list.
Proof.
  induction 1 as [|l ls Hl _ IH]; simpl; [reflexivity|].
  rewrite append_assoc. simpl. rewrite lines_cons by assumption.
  now rewrite IH.
Qed.

Lemma lines_unlines (ls : list string) :
  Forall (fun l => no_nl l = true) ls ->
  lines (unlines ls) = (ls ++ [EmptyString])%list.
Proof.
  intros H. rewrite <- (append_nil_r (unlines ls)).
  now rewrite lines_unlines_app.
Qed.

Lemma count_lines_unlines (p : string) (ls : list string) :
  prefix p EmptyString = false ->
  Forall (fun l => no_nl l = true) ls ->
  count_lines_with p (unlines ls) = List.length (filter (prefix p) ls).
Proof.
  intros Hp H. unfold count_lines_with.
  rewrite lines_unlines, filter_app, length_app by assumption.
  cbn [filter]. rewrite Hp. simpl. lia.
Qed.

(** ** The emitted lines stay on one line for one-line inputs *)

Lemma header_lines_no_nl : Forall (fun l => no_nl l = true) header_lines.
Proof. repeat constructor. Qed.

Lemma import_line_no_nl (pkg : string) :
  no_nl pkg = true -> no_nl (import_line pkg) = true.
Proof.
  intros H. unfold import_line. cbn. now rewrite no_nl_append, H.
Qed.

Ltac no_nl_line Ht Hn :=
  cbn; repeat (rewrite no_nl_append; cbn); rewrite ?Ht, ?Hn; reflexivity.

Lemma fragment_lines_no_nl (typ name : string) :
  no_nl typ = true -> no_nl name = true ->
  Forall (fun l => no_nl l = true) (fragment_lines typ name).
Proof.
  intros Ht Hn.
  unfold fragment_lines, var_doc_lines, var_func_lines, ptr_doc_lines, ptr_func_lines.
  cbn [app].
  repeat (apply Forall_cons; [no_nl_line Ht Hn|]).
  apply Forall_nil.
Qed.

Lemma output_lines_no_nl {X Y : Type}
    (types : list (type_entry X Y)) (imports : list string) :
  Forall entry_one_line types -> Forall path_one_line imports ->
  Forall (fun l => no_nl l = true) (output_lines types imports).
Proof.
  intros Ht Hi. unfold output_lines, preamble_lines.
  apply Forall_app; split; [apply Forall_app; split; [|apply Forall_app; split]|].
  - apply header_lines_no_nl.
  - apply Forall_map. eapply Forall_impl; [|exact Hi].
    intros p Hp. now apply import_line_no_nl.
  - repeat constructor.
  - unfold types_lines. apply Forall_flat_map.
    eapply Forall_impl; [|exact Ht].
    intros [[[typ name] x] y] [H1 H2]. now apply fragment_lines_no_nl.
Qed.

(** * The claims *)

(** C1. Determinism: the generated text is a function of the catalog and
    of the import list alone.  The script ends normally, and the text it
    leaves in [res] does not depend on the state it is started from, so
    two runs on the same inputs produce the same text. *)
Theorem generate_deterministic {X Y : Type}
    (types : list (type_entry X Y)) (imports : list string) (res1 res2 : string) :
  exists out,
    generate types imports = Some out /\
    script types imports res1 = Some out /\
    script types imports res2 = Some out.
Proof.
  exists (unlines (output_lines types imports)).
  repeat split; apply script_sets.
Qed.

(** C2. Delegation shape: for a catalog entry with element type [typ] and
    name suffix [name], the text holds, after everything generated for the
    entries before it and after its first comment, the definition of
    [Rest<name>sVar], whose body is the single statement returning
    [RestVar(register, new<name>Values(p), name, options...)]; then the
    second comment; then the definition of [Rest<name>s], whose body
    allocates [new([]typ)], calls [Rest<name>sVar] on it with the result
    assigned to [_], and returns the pointer. *)
Theorem rest_functions_shape {X Y : Type}
    (before after : list (type_entry X Y)) (typ name : string) (x : X) (y : Y)
    (imports : list string) :
  generate (before ++ (typ, name, x, y) :: after)%list imports =
  Some (unlines (output_lines before imports ++ var_doc_lines typ name)%list
        ++ ("func Rest" ++ name ++ "sVar(register Register, p *[]" ++ typ
              ++ ", name string, options ...RestOptionApplyer) error {" ++ nl
            ++ tab ++ "return RestVar(register, new" ++ name
              ++ "Values(p), name, options...)" ++ nl
            ++ "}" ++ nl)
        ++ unlines (ptr_doc_lines typ name)
        ++ ("func Rest" ++ name
              ++ "s(register Register, name string, options ...RestOptionApplyer) *[]"
              ++ typ ++ " {" ++ nl
            ++ tab ++ "p := new([]" ++ typ ++ ")" ++ nl
            ++ tab ++ "_ = Rest" ++ name ++ "sVar(register, p, name, options...)" ++ nl
            ++ tab ++ "return p" ++ nl
            ++ "}" ++ nl)
        ++ unlines (types_lines after)).
Proof.
  rewrite generate_lines. f_equal.
  unfold output_lines, types_lines.
  rewrite flat_map_app. cbn [flat_map entry_lines]. unfold fragment_lines.
  rewrite !unlines_app, !append_assoc.
  do 3 f_equal.
  unfold var_func_lines, ptr_func_lines. cbn [unlines fold_right].
  cbn. repeat (rewrite !append_assoc; cbn). reflexivity.
Qed.

(** ** Counting the lines that open a definition *)

Lemma filter_none {A : Type} (f : A -> bool) (l : list A) :
  Forall (fun x => f x = false) l -> filter f l = [].
Proof.
  induction 1 as [|x l Hx _ IH]; simpl; [reflexivity|]. now rewrite Hx.
Qed.

Lemma count_lines_generate {X Y : Type} (p : string)
    (types : list (type_entry X Y)) (imports : list string) :
  prefix p EmptyString = false ->
  Forall entry_one_line types -> Forall path_one_line imports ->
  exists out,
    generate types imports = Some out /\
    count_lines_with p out = List.length (filter (prefix p) (output_lines types imports)).
Proof.
  intros Hp Ht Hi. exists (unlines (output_lines types imports)). split.
  - apply generate_lines.
  - apply count_lines_unlines; [assumption|]. now apply output_lines_no_nl.
Qed.

Lemma preamble_no_func_prefix (p : string) (imports : list string) :
  prefix "f" p = true ->
  filter (prefix p) (preamble_lines imports) = [].
Proof.
  intros Hp. destruct p as [|c p]; [discriminate|].
  cbn [prefix] in Hp. destruct (ascii_dec "f" c) as [<-|]; [|discriminate].
  apply filter_none. unfold preamble_lines.
  apply Forall_app; split; [|apply Forall_app; split].
  - repeat constructor.
  - apply Forall_map. apply Forall_forall. intros pkg _. reflexivity.
  - repeat constructor.
Qed.

Lemma fragment_func_lines (typ name : string) :
  filter (prefix "func ") (fragment_lines typ name) =
  [ "func Rest" ++ name ++ "sVar(register Register, p *[]" ++ typ
      ++ ", name string, options ...RestOptionApplyer) error {";
    "func Rest" ++ name ++ "s(register Register, name string, options ...RestOptionApplyer) *[]"
      ++ typ ++ " {" ].
Proof. reflexivity. Qed.

Lemma types_func_lines {X Y : Type} (types : list (type_entry X Y)) :
  List.length (filter (prefix "func ") (types_lines types)) = 2 * List.length types.
Proof.
  unfold types_lines.
  induction types as [|[[[typ name] x] y] types IH]; [reflexivity|].
  cbn [flat_map entry_lines]. rewrite filter_app, length_app, IH, fragment_func_lines.
  simpl. lia.
Qed.

(** C3, as amended. Completeness: when no element type, name suffix or
    import path contains a line feed, the generated text has exactly
    [2 * |types|] lines that open a function definition; and for the empty
    catalog, whatever the import list, the text is the header, the package
    line and the import block and nothing else. *)
Theorem func_defs_count {X Y : Type}
    (types : list (type_entry X Y)) (imports : list string) :
  (Forall entry_one_line types -> Forall path_one_line imports ->
   exists out,
     generate types imports = Some out /\
     count_func_defs out = 2 * List.length types) /\
  generate (@nil (type_entry X Y)) imports =
    Some (unlines (header_lines ++ map import_line imports ++ [")"])%list).
Proof.
  split.
  - intros Ht Hi.
    destruct (count_lines_generate "func " types imports eq_refl Ht Hi)
      as (out & Hout & Hcount).
    exists out. split; [assumption|].
    unfold count_func_defs. rewrite Hcount.
    unfold output_lines. rewrite filter_app, length_app.
    rewrite preamble_no_func_prefix by reflexivity.
    now rewrite types_func_lines.
  - rewrite generate_lines. unfold output_lines, types_lines, preamble_lines.
    cbn [flat_map]. now rewrite app_nil_r.
Qed.

Lemma func_defs_count_witness :
  Forall entry_one_line [("int", "Int", tt, tt); ("string", "String", tt, tt)] /\
  Forall path_one_line ["fmt"] /\
  (exists out,
     generate [("int", "Int", tt, tt); ("string", "String", tt, tt)] ["fmt"] = Some out /\
     count_func_defs out = 2 * 2) /\
  generate (@nil (type_entry unit unit)) ["fmt"] =
    Some (unlines (header_lines ++ map import_line ["fmt"] ++ [")"])%list).
Proof.
  split; [repeat constructor|]. split; [repeat constructor|].
  destruct (func_defs_count [("int", "Int", tt, tt); ("string", "String", tt, tt)] ["fmt"])
    as [Hcount Hempty].
  split; [|exact Hempty].
  apply Hcount; repeat constructor.
Defined.

(** C3 as stated fails: an element type spelled over two lines, the
    second one opening with [func], puts ten lines that open a function
    definition into the text generated for a catalog of one entry. *)
Lemma func_defs_count_counterexample :
  exists out,
    generate [("int" ++ nl ++ "func Extra() {}", "Int", tt, tt)] [] = Some out /\
    count_func_defs out = 10 /\
    count_func_defs out <> 2 * List.length [("int" ++ nl ++ "func Extra() {}", "Int", tt, tt)].
Proof.
  eexists. split; [vm_compute; reflexivity|]. split; [vm_compute; reflexivity|].
  vm_compute. discriminate.
Qed.

(** ** The import block *)

Lemma append_inv_last (a b : string) (c : ascii) :
  a ++ String c EmptyString = b ++ String c EmptyString -> a = b.
Proof.
  revert b. induction a as [|x a IH]; intros [|z b] H; simpl in H.
  - reflexivity.
  - injection H as _ H. destruct b; discriminate.
  - injection H as _ H. destruct a; discriminate.
  - injection H as -> H. f_equal. now apply IH.
Qed.

Lemma import_line_inj (p q : string) : import_line p = import_line q -> p = q.
Proof.
  unfold import_line. cbn. intros H. injection H as H.
  now apply append_inv_last in H.
Qed.

Lemma count_occ_import_lines (imports : list string) (pkg : string) :
  count_occ string_dec (map import_line imports) (import_line pkg)
  = count_occ string_dec imports pkg.
Proof.
  induction imports as [|q l IH]; [reflexivity|].
  cbn [map count_occ].
  destruct (string_dec (import_line q) (import_line pkg)) as [E|E],
           (string_dec q pkg) as [E'|E']; rewrite IH; try reflexivity.
  - now apply import_line_inj in E.
  - now subst.
Qed.

Lemma until_import_close_block (imports : list string) (rest : list string) :
  until_import_close (map import_line imports ++ ")" :: rest)%list
  = map import_line imports.
Proof.
  induction imports as [|p l IH]; [reflexivity|].
  cbn [map app until_import_close].
  change (String.eqb (import_line p) ")") with false. now rewrite IH.
Qed.

Lemma import_block_generate {X Y : Type}
    (types : list (type_entry X Y)) (imports : list string) :
  Forall path_one_line imports ->
  import_block (unlines (output_lines types imports)) = map import_line imports.
Proof.
  intros Hi. unfold import_block, output_lines.
  rewrite unlines_app, lines_unlines_app.
  - unfold preamble_lines. rewrite <- !app_assoc.
    change (after_import_open
              (header_lines ++ map import_line imports ++ [")"]
                 ++ lines (unlines (types_lines types)))%list)
      with (map import_line imports ++ [")"]
              ++ lines (unlines (types_lines types)))%list.
    apply until_import_close_block.
  - unfold preamble_lines.
    apply Forall_app; split; [apply header_lines_no_nl|].
    apply Forall_app; split; [|repeat constructor].
    apply Forall_map. eapply Forall_impl; [|exact Hi].
    intros p Hp. now apply import_line_no_nl.
Qed.

(** C4, as amended. Import pass-through: when no import path contains a
    line feed, the import block of the generated text (its lines between
    the line [import (] and the closing parenthesis) has one line per entry
    of the import list, in input order, each a tab and the path between
    double quotes.  Nothing is dropped or merged: the block has as many
    lines as the list has entries, its i-th line is the line of the i-th
    entry, and the line of a path is in the block exactly as many times as
    the path is in the list.  This holds for every catalog. *)
Theorem import_block_pass_through {X Y : Type}
    (types : list (type_entry X Y)) (imports : list string) :
  Forall path_one_line imports ->
  exists out,
    generate types imports = Some out /\
    import_block out = map (fun pkg => tab ++ dq ++ pkg ++ dq) imports /\
    List.length (import_block out) = List.length imports /\
    (forall i, nth_error (import_block out) i
               = option_map (fun pkg => tab ++ dq ++ pkg ++ dq) (nth_error imports i)) /\
    (forall pkg,
       count_occ string_dec (import_block out) (tab ++ dq ++ pkg ++ dq)
       = count_occ string_dec imports pkg).
Proof.
  intros Hi. exists (unlines (output_lines types imports)).
  split; [apply generate_lines|].
  rewrite (import_block_generate types imports Hi).
  split; [reflexivity|]. split; [apply length_map|]. split.
  - intros i. apply nth_error_map.
  - intros pkg. apply count_occ_import_lines.
Qed.

Lemma import_block_pass_through_witness :
  Forall path_one_line ["fmt"; "os"; "fmt"] /\
  exists out,
    generate [("int", "Int", tt, tt)] ["fmt"; "os"; "fmt"] = Some out /\
    import_block out = map (fun pkg => tab ++ dq ++ pkg ++ dq) ["fmt"; "os"; "fmt"] /\
    List.length (import_block out) = 3 /\
    count_occ string_dec (import_block out) (tab ++ dq ++ "fmt" ++ dq) = 2.
Proof.
  split; [repeat constructor|].
  destruct (import_block_pass_through [("int", "Int", tt, tt)] ["fmt"; "os"; "fmt"])
    as (out & Hout & Hblock & Hlen & _ & Hcount).
  - repeat constructor.
  - exists out. split; [exact Hout|]. split; [exact Hblock|].
    split; [exact Hlen|]. rewrite Hcount. reflexivity.
Defined.

(** C4 as stated fails: an import path that carries a double quote, a line
    feed, a tab and a double quote is emitted as two import lines.  The
    list of the three entries below, in which [fmt] is twice, generates the
    very text of the list [fmt; fmt; os; fmt]: its import block has four
    lines, and the line of [fmt] is there three times. *)
Lemma import_block_pass_through_counterexample :
  exists out,
    generate (@nil (type_entry unit unit))
      ["fmt"; "fmt"; "os" ++ dq ++ nl ++ tab ++ dq ++ "fmt"] = Some out /\
    generate (@nil (type_entry unit unit)) ["fmt"; "fmt"; "os"; "fmt"] = Some out /\
    List.length (import_block out) = 4 /\
    List.length ["fmt"; "fmt"; "os" ++ dq ++ nl ++ tab ++ dq ++ "fmt"] = 3 /\
    count_occ string_dec (import_block out) (tab ++ dq ++ "fmt" ++ dq) = 3 /\
    count_occ string_dec ["fmt"; "fmt"; "os" ++ dq ++ nl ++ tab ++ dq ++ "fmt"] "fmt" = 2.
Proof.
  eexists. split; [vm_compute; reflexivity|].
  repeat split; vm_compute; reflexivity.
Qed.

(** The same block read back from the text: when no import path contains
    a line feed, the lines of the output after the five header lines are
    the import lines, in order, followed by the closing parenthesis. *)
Lemma import_block_lines {X Y : Type}
    (types : list (type_entry X Y)) (imports : list string) :
  Forall path_one_line imports ->
  exists out,
    generate types imports = Some out /\
    firstn (List.length imports) (skipn 5 (lines out)) = map import_line imports /\
    nth_error (lines out) (5 + List.length imports) = Some ")".
Proof.
  intros Hi. exists (unlines (output_lines types imports)).
  split; [apply generate_lines|].
  unfold output_lines. rewrite unlines_app.
  rewrite lines_unlines_app.
  2:{ unfold preamble_lines.
      apply Forall_app; split; [apply header_lines_no_nl|].
      apply Forall_app; split; [|repeat constructor].
      apply Forall_map. eapply Forall_impl; [|exact Hi].
      intros p Hp. now apply import_line_no_nl. }
  unfold preamble_lines, header_lines. cbn [app skipn]. split.
  - rewrite <- (length_map import_line imports) at 1.
    rewrite <- app_assoc. now rewrite firstn_app, firstn_all, Nat.sub_diag, app_nil_r.
  - cbn [Nat.add nth_error].
    rewrite <- (length_map import_line imports).
    rewrite <- app_assoc. rewrite nth_error_app2 by lia.
    now rewrite Nat.sub_diag.
Qed.

(** ** The fragments of the catalog *)

(** C5. Order preservation: the text is the preamble followed by the
    fragments of the catalog entries taken in catalog order, each entry
    contributing exactly its own lines.  Hence the fragment of an entry
    comes right after the whole text generated for the entries before it,
    and right before the fragments of the entries after it. *)
Theorem catalog_order_preserved {X Y : Type}
    (before after : list (type_entry X Y)) (d : type_entry X Y)
    (imports : list string) :
  generate (before ++ d :: after)%list imports =
    Some (unlines (preamble_lines imports
                   ++ flat_map entry_lines (before ++ d :: after))%list) /\
  exists out_before,
    generate before imports = Some out_before /\
    generate (before ++ d :: after)%list imports =
      Some (out_before
            ++ unlines (let '(typ, name, _, _) := d in fragment_lines typ name)
            ++ unlines (flat_map entry_lines after)).
Proof.
  split; [apply generate_lines|].
  exists (unlines (output_lines before imports)).
  split; [apply generate_lines|].
  rewrite generate_lines. f_equal.
  unfold output_lines, types_lines.
  rewrite flat_map_app. cbn [flat_map].
  now rewrite !unlines_app, !append_assoc.
Qed.

(** ** The header *)

Lemma generate_header_lines {X Y : Type}
    (types : list (type_entry X Y)) (imports : list string) :
  exists rest,
    generate types imports = Some (unlines header_lines ++ rest) /\
    rest = unlines (map import_line imports ++ ")" :: types_lines types)%list /\
    lines (unlines header_lines ++ rest) = (header_lines ++ lines rest)%list.
Proof.
  eexists. split; [|split; [reflexivity|]].
  - rewrite generate_lines. unfold output_lines, preamble_lines.
    rewrite <- !app_assoc. now rewrite unlines_app.
  - apply lines_unlines_app, header_lines_no_nl.
Qed.

(** C6. For every catalog and import list the text starts with the marker
    comment line, an empty line, the line [package cli], an empty line and
    the opening line of the import block: the marker is line 1 of the text
    and the package line comes after it and before the import block. *)
Theorem header_first {X Y : Type}
    (types : list (type_entry X Y)) (imports : list string) :
  exists out rest,
    generate types imports = Some out /\
    out = "// Code generated by generate_rest.py; DO NOT EDIT." ++ nl
          ++ nl
          ++ "package cli" ++ nl
          ++ nl
          ++ "import (" ++ nl
          ++ rest /\
    nth_error (lines out) 0 = Some "// Code generated by generate_rest.py; DO NOT EDIT." /\
    nth_error (lines out) 1 = Some EmptyString /\
    nth_error (lines out) 2 = Some "package cli" /\
    nth_error (lines out) 3 = Some EmptyString /\
    nth_error (lines out) 4 = Some "import (".
Proof.
  destruct (generate_header_lines types imports) as (rest & Hgen & _ & Hlines).
  exists (unlines header_lines ++ rest), rest.
  split; [exact Hgen|]. split; [reflexivity|].
  rewrite Hlines. repeat split.
Qed.

(** C9. For the empty import list the text still has the two delimiter
    lines of the import block, the closing one right after the opening
    one: lines 5 and 6 of the text are [import (] and [)], and the text of
    the catalog follows. *)
Theorem empty_import_block {X Y : Type} (types : list (type_entry X Y)) :
  exists out,
    generate types [] = Some out /\
    out = unlines header_lines ++ (")" ++ nl) ++ unlines (types_lines types) /\
    nth_error (lines out) 4 = Some "import (" /\
    nth_error (lines out) 5 = Some ")".
Proof.
  destruct (generate_header_lines types []) as (rest & Hgen & Hrest & Hlines).
  exists (unlines header_lines ++ rest). split; [exact Hgen|].
  rewrite Hlines. subst rest. cbn [map app].
  split; [reflexivity|].
  change (unlines (")" :: types_lines types))
    with (")" ++ String nl_char (unlines (types_lines types))).
  rewrite lines_cons by reflexivity.
  split; reflexivity.
Qed.

(** C10. Each import path is emitted verbatim: one pass of the import loop
    appends a tab, a double quote, the path itself, a double quote and a
    line feed, so the chunk is four characters longer than the path; and in
    the generated text this chunk sits between the chunks of the paths
    before it and those of the paths after it.  Nothing is escaped: this
    holds for every string, also one that contains a double quote. *)
Theorem import_path_verbatim {X Y : Type}
    (types : list (type_entry X Y)) (before after : list string) (pkg : string) :
  (forall res,
     import_body pkg res
     = Some (res ++ String tab_char (String dq_char
                      (pkg ++ String dq_char (String nl_char EmptyString))))) /\
  String.length (String tab_char (String dq_char
                   (pkg ++ String dq_char (String nl_char EmptyString))))
    = String.length pkg + 4 /\
  generate types (before ++ pkg :: after)%list =
    Some (unlines (header_lines ++ map import_line before)%list
          ++ String tab_char (String dq_char
               (pkg ++ String dq_char (String nl_char
                  (unlines (map import_line after ++ ")" :: types_lines types)%list))))).
Proof.
  split; [|split].
  - intros res. rewrite import_body_appends.
    unfold import_line. cbn. now rewrite !append_assoc.
  - cbn [String.length]. f_equal. f_equal.
    induction pkg as [|c p IH]; [reflexivity|]. cbn. now rewrite IH.
  - rewrite generate_lines. f_equal. unfold output_lines, preamble_lines.
    rewrite map_app. cbn [map].
    rewrite <- !app_assoc. rewrite app_assoc, unlines_app. f_equal.
    cbn [app unlines fold_right]. unfold import_line. cbn.
    now rewrite !append_assoc.
Qed.

(** ** The components bound to [_] *)

Lemma types_lines_descriptor {X Y : Type} (types : list (type_entry X Y)) :
  types_lines types
  = flat_map (fun tn => fragment_lines (fst tn) (snd tn)) (map descriptor types).
Proof.
  unfold types_lines.
  induction types as [|[[[typ name] x] y] types IH]; [reflexivity|].
  cbn [map flat_map entry_lines descriptor fst snd]. now rewrite IH.
Qed.

(** C8. The third and the fourth component of the catalog entries do not
    reach the output: two catalogs whose entries agree, one by one, on the
    element type and on the name suffix generate the same text with every
    import list, whatever their other components are (and whatever the
    types of these components are). *)
Theorem extra_fields_ignored {X1 Y1 X2 Y2 : Type}
    (types1 : list (type_entry X1 Y1)) (types2 : list (type_entry X2 Y2))
    (imports : list string) :
  map descriptor types1 = map descriptor types2 ->
  generate types1 imports = generate types2 imports.
Proof.
  intros H. rewrite !generate_lines. unfold output_lines.
  now rewrite !types_lines_descriptor, H.
Qed.

Lemma extra_fields_ignored_witness :
  map descriptor [("int", "Int", 0, true); ("string", "String", 1, false)]
    = map descriptor [("int", "Int", "strconv.Atoi", tt); ("string", "String", EmptyString, tt)] /\
  generate [("int", "Int", 0, true); ("string", "String", 1, false)] ["fmt"]
    = generate [("int", "Int", "strconv.Atoi", tt); ("string", "String", EmptyString, tt)] ["fmt"].
Proof.
  split; [reflexivity|].
  apply (extra_fields_ignored
           [("int", "Int", 0, true); ("string", "String", 1, false)]
           [("int", "Int", "strconv.Atoi", tt); ("string", "String", EmptyString, tt)]
           ["fmt"]).
  reflexivity.
Defined.

(** ** The names of the generated functions *)

Lemma fragment_RestIntsVar_lines (typ : string) :
  filter (prefix "func RestIntsVar(") (fragment_lines typ "Int") =
  [ "func RestIntsVar(register Register, p *[]" ++ typ
      ++ ", name string, options ...RestOptionApplyer) error {" ].
Proof. reflexivity. Qed.

Lemma fragment_RestInts_lines (typ : string) :
  filter (prefix "func RestInts(") (fragment_lines typ "Int") =
  [ "func RestInts(register Register, name string, options ...RestOptionApplyer) *[]"
      ++ typ ++ " {" ].
Proof. reflexivity. Qed.

(** C7, as amended. Naming derivation: for a catalog of one entry with
    name suffix [Int], whose element type and import paths contain no line
    feed, each of the functions [RestIntsVar] and [RestInts] is defined
    exactly once: exactly one line of the text starts with
    [func RestIntsVar(] and exactly one with [func RestInts(], and that line
    is the first line of the two definitions.  (The names themselves occur
    more often, see the counterexample.) *)
Theorem rest_int_names_defined_once {X Y : Type}
    (typ : string) (x : X) (y : Y) (imports : list string) :
  no_nl typ = true -> Forall path_one_line imports ->
  exists out,
    generate [(typ, "Int", x, y)] imports = Some out /\
    count_lines_with "func RestIntsVar(" out = 1 /\
    count_lines_with "func RestInts(" out = 1 /\
    count_func_defs out = 2.
Proof.
  intros Ht Hi.
  assert (Hd : Forall entry_one_line [(typ, "Int", x, y)])
    by (repeat constructor; assumption).
  exists (unlines (output_lines [(typ, "Int", x, y)] imports)).
  split; [apply generate_lines|].
  pose proof (output_lines_no_nl _ _ Hd Hi) as Hnl.
  unfold count_func_defs.
  rewrite !count_lines_unlines by (reflexivity || assumption).
  unfold output_lines. rewrite !filter_app, !length_app.
  rewrite !preamble_no_func_prefix by reflexivity.
  unfold types_lines. cbn [flat_map entry_lines]. rewrite !app_nil_r.
  now rewrite fragment_RestIntsVar_lines, fragment_RestInts_lines, fragment_func_lines.
Qed.

Lemma rest_int_names_defined_once_witness :
  no_nl "int" = true /\ Forall path_one_line ["fmt"; "strconv"] /\
  exists out,
    generate [("int", "Int", tt, tt)] ["fmt"; "strconv"] = Some out /\
    count_lines_with "func RestIntsVar(" out = 1 /\
    count_lines_with "func RestInts(" out = 1 /\
    count_func_defs out = 2.
Proof.
  split; [reflexivity|]. split; [repeat constructor|].
  apply (rest_int_names_defined_once "int" tt tt ["fmt"; "strconv"]).
  - reflexivity.
  - repeat constructor.
Defined.

(** C7 as stated fails: in the text generated for the catalog of the one
    entry [("int", "Int", _, _)] the name [RestIntsVar] occurs four times
    (first comment, usage example, definition, call in [RestInts]) and the
    name [RestInts] seven times (these four, and the second comment, its
    usage example and the second definition). *)
Lemma rest_int_names_counterexample :
  exists out,
    generate [("int", "Int", tt, tt)] [] = Some out /\
    count_occurrences "RestIntsVar" out = 4 /\
    count_occurrences "RestInts" out = 7 /\
    ~ (count_occurrences "RestIntsVar" out = 1 /\ count_occurrences "RestInts" out = 1).
Proof.
  eexists. split; [vm_compute; reflexivity|].
  split; [vm_compute; reflexivity|]. split; [vm_compute; reflexivity|].
  intros [H _]. vm_compute in H. discriminate.
Qed.

(** ** The end-to-end scenario of the specification *)

Example generate_string_pkgA :
  exists out,
    generate [("string", "String", tt, tt)] ["pkgA"] = Some out /\
    firstn 7 (lines out) =
      [ "// Code generated by generate_rest.py; DO NOT EDIT."; EmptyString; "package cli"; EmptyString;
        "import ("; tab ++ dq ++ "pkgA" ++ dq; ")" ] /\
    filter (prefix "func ") (lines out) =
      [ "func RestStringsVar(register Register, p *[]string, name string, options ...RestOptionApplyer) error {";
        "func RestStrings(register Register, name string, options ...RestOptionApplyer) *[]string {" ].
Proof.
  eexists. split; [vm_compute; reflexivity|]. split; vm_compute; reflexivity.
Qed.

Example generate_unescaped_quote :
  generate (@nil (type_entry unit unit)) ["a" ++ dq ++ "b"] =
  Some (unlines [ "// Code generated by generate_rest.py; DO NOT EDIT."; EmptyString; "package cli"; EmptyString;
                  "import ("; tab ++ dq ++ "a" ++ dq ++ "b" ++ dq; ")" ]).
Proof. reflexivity. Qed.

(** * Further properties of the generator *)

(** ** The generated text determines its inputs *)

Lemma length_append (a b : string) :
  String.length (a ++ b) = String.length a + String.length b.
Proof.
  induction a as [|c a IH]; simpl; [reflexivity | now rewrite IH].
Qed.

Lemma append_inv_tail (a b s : string) : a ++ s = b ++ s -> a = b.
Proof.
  intros H.
  assert (Hlen : String.length a = String.length b).
  { apply (f_equal String.length) in H. rewrite !length_append in H. lia. }
  revert b H Hlen. induction a as [|x a IH]; intros [|z b] H Hlen;
    try discriminate; [reflexivity|].
  simpl in H, Hlen. injection H as -> H. f_equal. apply IH; [exact H | lia].
Qed.

Lemma unlines_inj (l1 l2 : list string) :
  Forall (fun l => no_nl l = true) l1 ->
  Forall (fun l => no_nl l = true) l2 ->
  unlines l1 = unlines l2 -> l1 = l2.
Proof.
  intros H1 H2 H. apply (f_equal lines) in H.
  rewrite !lines_unlines in H by assumption.
  now apply app_inv_tail in H.
Qed.

Lemma import_block_inj (i1 i2 : list string) (t1 t2 : list string) :
  (map import_line i1 ++ ")" :: t1 = map import_line i2 ++ ")" :: t2)%list ->
  i1 = i2 /\ t1 = t2.
Proof.
  revert i2. induction i1 as [|p i1 IH]; intros [|q i2] H; cbn [map app] in H.
  - injection H as H. now split.
  - discriminate.
  - discriminate.
  - injection H as Hpq H. apply append_inv_tail in Hpq. subst q.
    destruct (IH _ H) as [-> ->]. now split.
Qed.

Lemma fragment_lines_length (typ name : string) :
  List.length (fragment_lines typ name) = 26.
Proof. reflexivity. Qed.

Lemma fragment_lines_inj (typ name typ' name' : string) (r r' : list string) :
  (fragment_lines typ name ++ r = fragment_lines typ' name' ++ r')%list ->
  typ = typ' /\ name = name' /\ r = r'.
Proof.
  intros H.
  assert (Ht : nth 1 (fragment_lines typ name ++ r)%list EmptyString
               = nth 1 (fragment_lines typ' name' ++ r')%list EmptyString)
    by now rewrite H.
  assert (Hn : nth 12 (fragment_lines typ name ++ r)%list EmptyString
               = nth 12 (fragment_lines typ' name' ++ r')%list EmptyString)
    by now rewrite H.
  assert (Hr : skipn 26 (fragment_lines typ name ++ r)%list
               = skipn 26 (fragment_lines typ' name' ++ r')%list)
    by now rewrite H.
  clear H. cbn in Ht, Hn, Hr.
  injection Ht as Ht. injection Hn as Hn.
  apply append_inv_tail in Hn. now repeat split.
Qed.

Lemma types_lines_inj {X1 Y1 X2 Y2 : Type}
    (types1 : list (type_entry X1 Y1)) (types2 : list (type_entry X2 Y2)) :
  types_lines types1 = types_lines types2 ->
  map descriptor types1 = map descriptor types2.
Proof.
  unfold types_lines. revert types2.
  induction types1 as [|[[[t n] x] y] types1 IH];
    intros [|[[[t' n'] x'] y'] types2] H.
  - reflexivity.
  - discriminate.
  - discriminate.
  - cbn [flat_map entry_lines] in H.
    apply fragment_lines_inj in H as (-> & -> & H).
    cbn [map descriptor]. f_equal. now apply IH.
Qed.

(** X1. The generated text determines the inputs that the script reads:
    when no element type, name suffix or import path contains a line feed,
    two runs that produce the same text had the same import list and
    catalogs with the same (element type, name suffix) pairs in the same
    order. *)
Theorem generate_injective {X1 Y1 X2 Y2 : Type}
    (types1 : list (type_entry X1 Y1)) (types2 : list (type_entry X2 Y2))
    (imports1 imports2 : list string) :
  Forall entry_one_line types1 -> Forall path_one_line imports1 ->
  Forall entry_one_line types2 -> Forall path_one_line imports2 ->
  generate types1 imports1 = generate types2 imports2 ->
  imports1 = imports2 /\ map descriptor types1 = map descriptor types2.
Proof.
  intros Ht1 Hi1 Ht2 Hi2 H0. rewrite !generate_lines in H0.
  assert (H : unlines (output_lines types1 imports1)
              = unlines (output_lines types2 imports2)) by congruence.
  clear H0. apply unlines_inj in H; try now apply output_lines_no_nl.
  unfold output_lines, preamble_lines in H.
  rewrite <- !app_assoc in H. apply app_inv_head in H.
  cbn [app] in H. apply import_block_inj in H as [Hi H].
  split; [exact Hi|]. now apply types_lines_inj.
Qed.

Lemma generate_injective_witness :
  ["fmt"] = ["fmt"] /\
  map descriptor [("int", "Int", 0, true)] = map descriptor [("int", "Int", tt, tt)].
Proof.
  apply (generate_injective [("int", "Int", 0, true)] [("int", "Int", tt, tt)]
           ["fmt"] ["fmt"]).
  - repeat constructor.
  - repeat constructor.
  - repeat constructor.
  - repeat constructor.
  - reflexivity.
Defined.

(** ** Every definition carries its comment *)

Lemma last_cons_default {A : Type} (x : A) (l : list A) (d d' : A) :
  last (x :: l) d = last (x :: l) d'.
Proof.
  revert x. induction l as [|y l IH]; intros x; [reflexivity|].
  change (last (y :: l) d = last (y :: l) d'). apply IH.
Qed.

Lemma funcs_documented_skip (prev : string) (a b : list string) :
  Forall (fun l => prefix "func " l = false) a ->
  funcs_documented prev (a ++ b)%list = funcs_documented (last a prev) b.
Proof.
  intros H. revert prev. induction H as [|l a Hl _ IH]; intros prev; [reflexivity|].
  cbn [app funcs_documented]. rewrite Hl, IH. cbn [negb orb andb].
  destruct a as [|x a]; [reflexivity|].
  now rewrite (last_cons_default x a l prev).
Qed.

Lemma funcs_documented_fragment (prev typ name : string) (rest : list string) :
  funcs_documented prev (fragment_lines typ name ++ rest)%list
  = funcs_documented "}" rest.
Proof. reflexivity. Qed.

Lemma funcs_documented_types {X Y : Type} (prev : string)
    (types : list (type_entry X Y)) :
  funcs_documented prev (types_lines types ++ [EmptyString])%list = true.
Proof.
  unfold types_lines. revert prev.
  induction types as [|[[[typ name] x] y] types IH]; intros prev; [reflexivity|].
  cbn [flat_map entry_lines]. rewrite <- app_assoc.
  rewrite funcs_documented_fragment. apply IH.
Qed.

Lemma funcs_documented_nth (prev : string) (ls : list string) :
  funcs_documented prev ls = true ->
  forall i l, nth_error ls (S i) = Some l -> prefix "func " l = true ->
  exists c, nth_error ls i = Some c /\ prefix "//" c = true.
Proof.
  revert prev. induction ls as [|a ls IH]; intros prev H i l Hl Hf.
  - discriminate.
  - cbn [funcs_documented] in H. apply andb_prop in H as [_ H].
    destruct i as [|i].
    + destruct ls as [|b ls]; [discriminate|].
      cbn in Hl. injection Hl as ->.
      cbn [funcs_documented] in H. apply andb_prop in H as [H _].
      rewrite Hf in H. cbn [negb orb] in H.
      exists a. now split.
    + cbn [nth_error] in Hl |- *. now apply (IH a H i l).
Qed.

(** X2. For inputs without line feeds, every line of the generated text
    that opens a function definition stands right after a comment line (so
    each generated function has its documentation comment attached to it);
    and the first line of the text is not such a line. *)
Theorem definitions_follow_comments {X Y : Type}
    (types : list (type_entry X Y)) (imports : list string) :
  Forall entry_one_line types -> Forall path_one_line imports ->
  exists out,
    generate types imports = Some out /\
    (forall l, nth_error (lines out) 0 = Some l -> prefix "func " l = false) /\
    (forall i l,
       nth_error (lines out) (S i) = Some l -> prefix "func " l = true ->
       exists c, nth_error (lines out) i = Some c /\ prefix "//" c = true).
Proof.
  intros Ht Hi. exists (unlines (output_lines types imports)).
  split; [apply generate_lines|].
  rewrite lines_unlines by now apply output_lines_no_nl.
  split.
  - intros l H. cbn in H. now injection H as <-.
  - apply (funcs_documented_nth EmptyString).
    unfold output_lines. rewrite <- app_assoc.
    rewrite funcs_documented_skip.
    + apply funcs_documented_types.
    + unfold preamble_lines.
      apply Forall_app; split; [|apply Forall_app; split].
      * repeat constructor.
      * apply Forall_map. apply Forall_forall. intros pkg _. reflexivity.
      * repeat constructor.
Qed.

Lemma definitions_follow_comments_witness :
  exists out,
    generate [("int", "Int", tt, tt)] ["fmt"] = Some out /\
    (forall l, nth_error (lines out) 0 = Some l -> prefix "func " l = false) /\
    (forall i l,
       nth_error (lines out) (S i) = Some l -> prefix "func " l = true ->
       exists c, nth_error (lines out) i = Some c /\ prefix "//" c = true).
Proof.
  apply (definitions_follow_comments [("int", "Int", tt, tt)] ["fmt"]).
  - repeat constructor.
  - repeat constructor.
Defined.

(** ** How the text ends *)

Lemma unlines_snoc (ls : list string) (l : string) :
  unlines (ls ++ [l])%list = unlines ls ++ l ++ nl.
Proof. rewrite unlines_app. reflexivity. Qed.

Lemma unlines_ends_with_nl (ls : list string) :
  ls <> [] -> exists body, unlines ls = body ++ nl.
Proof.
  intros H. destruct (exists_last H) as (front & l & ->).
  exists (unlines front ++ l). now rewrite unlines_snoc, append_assoc.
Qed.

Lemma split_first_line_app (a b : string) :
  split_first_line (a ++ String nl_char b)
  = (fst (split_first_line a), (snd (split_first_line a) ++ lines b)%list).
Proof.
  induction a as [|c a IH].
  - cbn. unfold lines. now destruct (split_first_line b).
  - cbn [append split_first_line]. rewrite IH.
    destruct (split_first_line a) as [l ls]. cbn [fst snd].
    now destruct (Ascii.eqb c nl_char).
Qed.

Lemma lines_app (a b : string) :
  lines (a ++ String nl_char b) = (lines a ++ lines b)%list.
Proof.
  unfold lines at 1 2. rewrite split_first_line_app.
  now destruct (split_first_line a).
Qed.

(** X3. The last line of the generated text is a closing line, for every
    input: the text is some text, a line feed, the closing line and a line
    feed, where the closing line is the closing brace of the last function
    when the catalog has an entry, and the closing parenthesis of the
    import block when the catalog is empty.  Split at its line feeds, the
    text ends with that line and the empty piece after the last line
    feed. *)
Theorem text_ends_with_closing_line {X Y : Type}
    (types : list (type_entry X Y)) (imports : list string) :
  exists body,
    generate types imports =
      Some (body ++ nl ++ match types with [] => ")" | _ :: _ => "}" end ++ nl) /\
    lines (body ++ nl ++ match types with [] => ")" | _ :: _ => "}" end ++ nl)
    = (lines body
       ++ [match types with [] => ")" | _ :: _ => "}" end; EmptyString])%list.
Proof.
  assert (Hlines : forall body closing,
            no_nl closing = true ->
            lines (body ++ nl ++ closing ++ nl)
            = (lines body ++ [closing; EmptyString])%list).
  { intros body closing Hc.
    change (body ++ nl ++ closing ++ nl)
      with (body ++ String nl_char (closing ++ String nl_char EmptyString)).
    rewrite lines_app, lines_cons by assumption. reflexivity. }
  rewrite generate_lines. unfold output_lines.
  destruct types as [|d types].
  - destruct (unlines_ends_with_nl (header_lines ++ map import_line imports)%list)
      as (body & Hbody); [discriminate|].
    exists body. split; [|now apply Hlines].
    unfold types_lines, preamble_lines. cbn [flat_map].
    rewrite app_nil_r, app_assoc, unlines_snoc, Hbody.
    now rewrite !append_assoc.
  - destruct (exists_last (l := d :: types)) as (front & [[[typ name] x] y] & E);
      [discriminate|].
    rewrite E. unfold types_lines. rewrite flat_map_app. cbn [flat_map entry_lines].
    rewrite app_nil_r.
    destruct (unlines_ends_with_nl
                (preamble_lines imports ++ flat_map entry_lines front
                   ++ removelast (fragment_lines typ name))%list)
      as (body & Hbody).
    { unfold preamble_lines, header_lines. discriminate. }
    exists body. split; [|now apply Hlines].
    rewrite <- append_assoc, <- Hbody, <- unlines_snoc. do 2 f_equal.
    rewrite <- !app_assoc. do 2 f_equal.
Qed.

(** ** The size of the text *)

Lemma list_sum_cons (n : nat) (l : list nat) :
  list_sum (n :: l) = n + list_sum l.
Proof. reflexivity. Qed.

Lemma length_unlines (ls : list string) :
  String.length (unlines ls) = list_sum (map (fun l => S (String.length l)) ls).
Proof.
  induction ls as [|l ls IH]; [reflexivity|].
  change (unlines (l :: ls)) with (l ++ nl ++ unlines ls).
  cbn [map]. rewrite list_sum_cons, !length_append, IH.
  change (String.length nl) with 1. lia.
Qed.

Lemma import_lines_size (imports : list string) :
  list_sum (map (fun l => S (String.length l)) (map import_line imports))
  = list_sum (map path_size imports).
Proof.
  induction imports as [|p l IH]; [reflexivity|].
  cbn [map]. rewrite !list_sum_cons, IH. f_equal.
  unfold import_line, path_size. cbn. rewrite length_append. cbn. lia.
Qed.

Lemma fragment_lines_size (typ name : string) :
  list_sum (map (fun l => S (String.length l)) (fragment_lines typ name))
  = 8 * String.length typ + 8 * String.length name + 964.
Proof.
  unfold fragment_lines, var_doc_lines, var_func_lines, ptr_doc_lines, ptr_func_lines.
  unfold tab, dq. cbn [app map]. rewrite !list_sum_cons.
  change (list_sum []) with 0.
  repeat (cbn [append String.length]; rewrite ?length_append).
  cbn [append String.length]. lia.
Qed.

Lemma types_lines_size {X Y : Type} (types : list (type_entry X Y)) :
  list_sum (map (fun l => S (String.length l)) (types_lines types))
  = list_sum (map entry_size types).
Proof.
  unfold types_lines.
  induction types as [|[[[typ name] x] y] types IH]; [reflexivity|].
  cbn [flat_map entry_lines map entry_size].
  now rewrite list_sum_cons, map_app, list_sum_app, fragment_lines_size, IH.
Qed.

(** X4. The size of the generated text, for every input: 77 characters
    for the header and the delimiters of the import block, every import
    path with four more characters, and for every catalog entry the 964
    characters of the templates together with eight copies of the element
    type and eight copies of the name suffix.  The inputs are copied and
    nothing else is added or removed. *)
Theorem generated_text_size {X Y : Type}
    (types : list (type_entry X Y)) (imports : list string) :
  exists out,
    generate types imports = Some out /\
    String.length out
    = 77 + list_sum (map path_size imports) + list_sum (map entry_size types).
Proof.
  exists (unlines (output_lines types imports)).
  split; [apply generate_lines|].
  rewrite length_unlines. unfold output_lines, preamble_lines.
  rewrite !map_app, !list_sum_app.
  rewrite import_lines_size, types_lines_size.
  change (list_sum (map (fun l => S (String.length l)) header_lines)) with 75.
  change (list_sum (map (fun l => S (String.length l)) [")"])) with 2.
  lia.
Qed.

(** ** Where the lines of an entry are *)

Lemma types_lines_length {X Y : Type} (types : list (type_entry X Y)) :
  List.length (types_lines types) = 26 * List.length types.
Proof.
  unfold types_lines.
  induction types as [|[[[typ name] x] y] types IH]; [reflexivity|].
  cbn [flat_map entry_lines]. rewrite length_app, IH, fragment_lines_length.
  cbn [List.length]. lia.
Qed.

Lemma types_lines_nth {X Y : Type} (types : list (type_entry X Y))
    (k j : nat) (d : type_entry X Y) (rest : list string) :
  nth_error types k = Some d -> j < 26 ->
  nth_error (types_lines types ++ rest)%list (26 * k + j)
  = nth_error (entry_lines d) j.
Proof.
  unfold types_lines. revert k.
  induction types as [|[[[typ name] x] y] types IH]; intros k Hk Hj.
  - destruct k; discriminate.
  - cbn [flat_map]. rewrite <- app_assoc. destruct k as [|k].
    + cbn in Hk. injection Hk as <-. cbn [entry_lines].
      rewrite Nat.mul_0_r, Nat.add_0_l.
      apply nth_error_app1. now rewrite fragment_lines_length.
    + cbn [nth_error] in Hk.
      change (entry_lines (typ, name, x, y)) with (fragment_lines typ name).
      rewrite nth_error_app2 by (rewrite fragment_lines_length; lia).
      rewrite fragment_lines_length.
      replace (26 * S k + j - 26) with (26 * k + j) by lia.
      now apply IH.
Qed.

(** X5. Layout of the text for inputs without line feeds: splitting the
    text at its line feeds gives [7 + |imports| + 26 * |types|] pieces (the
    last one empty), and the 26 lines generated for the k-th catalog entry
    (counting from 0) are the lines [6 + |imports| + 26 * k] and following;
    in particular the definition of its [Rest<name>sVar] opens at offset 11
    and the definition of its [Rest<name>s] at offset 21. *)
Theorem entry_lines_position {X Y : Type}
    (types : list (type_entry X Y)) (imports : list string) :
  Forall entry_one_line types -> Forall path_one_line imports ->
  exists out,
    generate types imports = Some out /\
    List.length (lines out) = 7 + List.length imports + 26 * List.length types /\
    forall k typ name x y,
      nth_error types k = Some (typ, name, x, y) ->
      (forall j, j < 26 ->
         nth_error (lines out) (6 + List.length imports + 26 * k + j)
         = nth_error (fragment_lines typ name) j) /\
      nth_error (lines out) (6 + List.length imports + 26 * k + 11)
        = Some ("func Rest" ++ name ++ "sVar(register Register, p *[]" ++ typ
                  ++ ", name string, options ...RestOptionApplyer) error {") /\
      nth_error (lines out) (6 + List.length imports + 26 * k + 21)
        = Some ("func Rest" ++ name
                  ++ "s(register Register, name string, options ...RestOptionApplyer) *[]"
                  ++ typ ++ " {").
Proof.
  intros Ht Hi. exists (unlines (output_lines types imports)).
  split; [apply generate_lines|].
  rewrite lines_unlines by now apply output_lines_no_nl.
  unfold output_lines. split.
  - rewrite !length_app, types_lines_length.
    unfold preamble_lines, header_lines.
    rewrite !length_app, length_map. cbn [List.length]. lia.
  - intros k typ name x y Hk.
    assert (Hpos : forall j, j < 26 ->
              nth_error ((preamble_lines imports ++ types_lines types)
                           ++ [EmptyString])%list
                        (6 + List.length imports + 26 * k + j)
              = nth_error (fragment_lines typ name) j).
    { intros j Hj. rewrite <- app_assoc.
      assert (Hlen : List.length (preamble_lines imports) = 6 + List.length imports).
      { unfold preamble_lines, header_lines.
        rewrite !length_app, length_map. cbn [List.length]. lia. }
      rewrite nth_error_app2 by lia. rewrite Hlen.
      replace (6 + List.length imports + 26 * k + j - (6 + List.length imports))
        with (26 * k + j) by lia.
      now rewrite (types_lines_nth types k j (typ, name, x, y)). }
    split; [exact Hpos|]. split.
    + rewrite Hpos by lia. reflexivity.
    + rewrite Hpos by lia. reflexivity.
Qed.

Lemma entry_lines_position_witness :
  exists out,
    generate [("int", "Int", tt, tt); ("string", "String", tt, tt)] ["fmt"] = Some out /\
    nth_error (lines out) (6 + 1 + 26 * 1 + 11)
      = Some "func RestStringsVar(register Register, p *[]string, name string, options ...RestOptionApplyer) error {".
Proof.
  destruct (entry_lines_position
              [("int", "Int", tt, tt); ("string", "String", tt, tt)] ["fmt"])
    as (out & Hout & _ & Hpos).
  - repeat constructor.
  - repeat constructor.
  - exists out. split; [exact Hout|].
    destruct (Hpos 1 "string" "String" tt tt eq_refl) as (_ & Hvar & _).
    exact Hvar.
Defined.

(** ** The import block, read from the text *)

Lemma import_block_lines_witness :
  exists out,
    generate [("int", "Int", tt, tt)] ["fmt"; "fmt"; "os"] = Some out /\
    firstn 3 (skipn 5 (lines out)) = map import_line ["fmt"; "fmt"; "os"] /\
    nth_error (lines out) (5 + 3) = Some ")".
Proof.
  apply (import_block_lines [("int", "Int", tt, tt)] ["fmt"; "fmt"; "os"]).
  repeat constructor.
Defined.

(** ** Blank lines between the definitions *)

Lemma blank_after_closers_skip (a b : list string) :
  Forall (fun l => String.eqb l "}" = false) a ->
  blank_after_closers (a ++ b)%list = blank_after_closers b.
Proof.
  induction 1 as [|l a Hl _ IH]; [reflexivity|].
  cbn [app blank_after_closers]. now rewrite Hl, IH.
Qed.

Lemma blank_after_closers_types {X Y : Type} (types : list (type_entry X Y)) :
  blank_after_closers (types_lines types ++ [EmptyString])%list = true.
Proof.
  unfold types_lines.
  induction types as [|[[[typ name] x] y] types IH]; [reflexivity|].
  cbn [flat_map entry_lines]. rewrite <- app_assoc.
  destruct types as [|[[[typ' name'] x'] y'] types]; [reflexivity|].
  rewrite <- IH. cbn [flat_map entry_lines]. rewrite <- !app_assoc.
  reflexivity.
Qed.

Lemma blank_after_closers_nth (ls : list string) :
  blank_after_closers ls = true ->
  forall i, nth_error ls i = Some "}" -> nth_error ls (S i) = Some EmptyString.
Proof.
  induction ls as [|l ls IH]; intros H i Hi.
  - destruct i; discriminate.
  - cbn [blank_after_closers] in H. apply andb_prop in H as [Hl H].
    destruct i as [|i].
    + cbn in Hi. injection Hi as ->. cbn [String.eqb negb orb] in Hl.
      change (String.eqb "}" "}") with true in Hl. cbn [negb orb] in Hl.
      destruct ls as [|next ls]; [discriminate|].
      apply String.eqb_eq in Hl. now subst next.
    + cbn [nth_error] in Hi |- *. now apply IH.
Qed.

(** X7. For inputs without line feeds, every closing brace of a generated
    function is followed by an empty line or by the end of the text: the
    line after a line that consists of a closing brace is empty, so the
    definitions are separated from what follows by a blank line. *)
Theorem closing_brace_then_blank {X Y : Type}
    (types : list (type_entry X Y)) (imports : list string) :
  Forall entry_one_line types -> Forall path_one_line imports ->
  exists out,
    generate types imports = Some out /\
    forall i, nth_error (lines out) i = Some "}" ->
              nth_error (lines out) (S i) = Some EmptyString.
Proof.
  intros Ht Hi. exists (unlines (output_lines types imports)).
  split; [apply generate_lines|].
  rewrite lines_unlines by now apply output_lines_no_nl.
  apply blank_after_closers_nth.
  unfold output_lines. rewrite <- app_assoc, blank_after_closers_skip.
  - apply blank_after_closers_types.
  - unfold preamble_lines.
    apply Forall_app; split; [|apply Forall_app; split].
    + repeat constructor.
    + apply Forall_map. apply Forall_forall. intros pkg _. reflexivity.
    + repeat constructor.
Qed.

Lemma closing_brace_then_blank_witness :
  exists out,
    generate [("int", "Int", tt, tt); ("string", "String", tt, tt)] ["fmt"] = Some out /\
    forall i, nth_error (lines out) i = Some "}" ->
              nth_error (lines out) (S i) = Some EmptyString.
Proof.
  apply (closing_brace_then_blank
           [("int", "Int", tt, tt); ("string", "String", tt, tt)] ["fmt"]).
  - repeat constructor.
  - repeat constructor.
Defined.
